(** * Dataset path resolver ([src/finders/data_finders.py])

    A shallow embedding of the path-discovery helper of the ECG project:
    the validation primitive [validate_path_exists], the three dataset
    resolvers and the dispatch wrapper [safe_find_paths], together with
    the properties the specification states about them.

    The Python code only reads the file system and writes log records, and
    it signals failure with exceptions.  It is embedded in a state and
    error monad over a [World] that holds the file system, the log emitted
    so far and the trace of file-system queries issued so far.

    The file system is a tree.  It carries what the code can tell apart
    through [pathlib]: the kind of what a path resolves to, a component
    longer than [NAME_MAX], whose lookup the operating system refuses
    ([OSError], errno 36, which [pathlib] lets through), and a directory
    that can be searched but not read, which [Path.glob] reports as empty.
    Permission to search a directory and the bound on the length of a
    whole path are not part of it. *)

From Stdlib Require Import String Ascii List Bool Arith Lia DecimalString.
Import ListNotations.
Open Scope string_scope.
Set Warnings "-register-all".

(** * The program *)

(** ** Paths ([pathlib.Path]) *)

(** A pure path: whether it is anchored at the root, and its components.
    [Path(".")] has no component. *)
Record Path : Type := mkPath { absolute : bool; parts : list string }.

(** [path / name] for a single relative component [name], as every use in
    the module is. *)
Definition joinpath (p : Path) (name : string) : Path :=
  mkPath (absolute p) (parts p ++ [name]).

Notation "p // name" := (joinpath p name) (at level 40, left associativity).

(** [str(path)], which the f-strings of the module interpolate. *)
Definition path_str (p : Path) : string :=
  if absolute p then "/" ++ String.concat "/" (parts p)
  else match parts p with
       | [] => "."
       | _ => String.concat "/" (parts p)
       end.

(** ** The file system *)

(** What a directory entry resolves to once symbolic links are followed:
    a regular file, something that exists but is neither a regular file nor
    a directory (device, socket, FIFO), a link whose target is missing, a
    directory with its entries, or a directory that can be searched but not
    read (mode [--x]): its entries can be reached by name and not listed. *)
Inductive Node : Type :=
| File
| Special
| Dangling
| Dir (entries : list (string * Node))
| SearchOnlyDir (entries : list (string * Node)).

(** The entries of a directory, readable or not, by name. *)
Definition dir_entries (nd : Node) : option (list (string * Node)) :=
  match nd with
  | Dir entries | SearchOnlyDir entries => Some entries
  | _ => None
  end.

(** The longest name a directory entry can have, in bytes (Linux). *)
Definition NAME_MAX : nat := 255.

Definition name_too_long (c : string) : bool := (NAME_MAX <? String.length c)%nat.

Record FileSystem : Type := mkFS { fs_root : Node; fs_cwd : list string }.

Fixpoint lookup_entry (name : string) (entries : list (string * Node)) : option Node :=
  match entries with
  | [] => None
  | (n, nd) :: rest => if String.eqb n name then Some nd else lookup_entry name rest
  end.

(** The outcome of a path resolution: a node, with the directories above
    it; nothing (ENOENT, ENOTDIR); or a refusal (ENAMETOOLONG). *)
Inductive Lookup : Type :=
| Found (up : list Node) (nd : Node)
| NotFound
| NameTooLong.

(** Path resolution as the operating system does it: component by
    component, [".."] going back to the parent (the root being its own
    parent), every other component being looked up in the current
    directory, which refuses a name longer than [NAME_MAX].  [up] is the
    chain of directories above [cur]. *)
Fixpoint walk (up : list Node) (cur : Node) (ps : list string) : Lookup :=
  match ps with
  | [] => Found up cur
  | c :: rest =>
      match dir_entries cur with
      | Some entries =>
          if String.eqb c ".." then
            match up with
            | [] => walk [] cur rest
            | parent :: up' => walk up' parent rest
            end
          else if name_too_long c then NameTooLong
          else
            match lookup_entry c entries with
            | Some nd => walk (cur :: up) nd rest
            | None => NotFound
            end
      | None => NotFound
      end
  end.

(** The components the operating system walks for a path. *)
Definition walked (f : FileSystem) (p : Path) : list string :=
  if absolute p then parts p else fs_cwd f ++ parts p.

Definition resolve (f : FileSystem) (p : Path) : option Node :=
  match walk [] (fs_root f) (walked f p) with
  | Found _ nd => Some nd
  | NotFound | NameTooLong => None
  end.

(** What [Path.exists()], [Path.is_dir()] and [Path.is_file()] answer when
    the operating system answers the [stat] behind them: all three follow
    links, so a dangling link does not exist.  Where the [stat] is refused
    (see [stat_error]) none of them answers, and these are [false]. *)
Definition exists_b (f : FileSystem) (p : Path) : bool :=
  match resolve f p with
  | Some File | Some Special | Some (Dir _) | Some (SearchOnlyDir _) => true
  | Some Dangling | None => false
  end.

Definition is_dir_b (f : FileSystem) (p : Path) : bool :=
  match resolve f p with
  | Some (Dir _) | Some (SearchOnlyDir _) => true
  | _ => false
  end.

Definition is_file_b (f : FileSystem) (p : Path) : bool :=
  match resolve f p with
  | Some File => true
  | _ => false
  end.

(** The names a scan of the directory yields to [Path.glob]: nothing for
    a path that is not a directory, and nothing for a directory that cannot
    be read, whose [PermissionError] the scan of [pathlib] swallows.  A
    dangling link is listed like any other entry. *)
Definition listdir (f : FileSystem) (p : Path) : list string :=
  match resolve f p with
  | Some (Dir entries) => map fst entries
  | _ => []
  end.

(** [list(path.glob("*"))]: one path per entry of the directory.  The
    pattern is matched against every name the scan yields, and [pathlib]
    gives a leading dot no special treatment (unlike the [glob] module). *)
Definition glob_star (f : FileSystem) (p : Path) : list Path :=
  map (joinpath p) (listdir f p).

(** ** Log records and exceptions *)

Inductive Level : Type := ERROR | WARNING | INFO.

Definition LogLine : Type := (Level * string)%type.

(** The exceptions of the module: the two it raises itself, and the
    [OSError] of a refused system call, with its errno, the text of the
    errno and the file name.  ([FileNotFoundError] is the [OSError] of
    ENOENT; an [OSError] of another errno is no [FileNotFoundError].) *)
Inductive exn : Type :=
| FileNotFoundError (msg : string)
| ValueError (msg : string)
| OSError (errno : nat) (strerror : string) (filename : string).

(** [str(len(files))], and the errno in [str(e)] *)
Definition nat_str (n : nat) : string := NilEmpty.string_of_uint (Nat.to_uint n).

(** [str(e)] *)
Definition exn_str (e : exn) : string :=
  match e with
  | FileNotFoundError msg => msg
  | ValueError msg => msg
  | OSError errno strerror filename =>
      "[Errno " ++ nat_str errno ++ "] " ++ strerror ++ ": '" ++ filename ++ "'"
  end.

(** The exception of the [stat] of a path, when the operating system
    refuses it: [pathlib] swallows ENOENT, ENOTDIR, EBADF and ELOOP, and
    lets every other [OSError] through, here ENAMETOOLONG. *)
Definition stat_error (f : FileSystem) (p : Path) : option exn :=
  match walk [] (fs_root f) (walked f p) with
  | NameTooLong => Some (OSError 36 "File name too long" (path_str p))
  | Found _ _ | NotFound => None
  end.

(** ** The world and the monad *)

(** One query of the file system. *)
Inductive Probe : Type :=
| PExists (p : Path)
| PIsDir (p : Path)
| PIsFile (p : Path)
| PGlob (p : Path).

Definition probe_path (q : Probe) : Path :=
  match q with
  | PExists p | PIsDir p | PIsFile p | PGlob p => p
  end.

Record World : Type := mkWorld {
  fs : FileSystem;
  log : list LogLine;
  probes : list Probe
}.

Inductive Result (A : Type) : Type :=
| Ret (a : A)
| Raise (e : exn).

Arguments Ret {A} a.
Arguments Raise {A} e.

Definition M (A : Type) : Type := World -> Result A * World.

Definition ret {A} (a : A) : M A := fun w => (Ret a, w).

Definition raise {A} (e : exn) : M A := fun w => (Raise e, w).

Definition bind {A B} (m : M A) (k : A -> M B) : M B :=
  fun w =>
    match m w with
    | (Ret a, w') => k a w'
    | (Raise e, w') => (Raise e, w')
    end.

(** [try: m except <classes> as e: h e]: an exception of another class
    passes through. *)
Definition try_except {A} (m : M A) (classes : exn -> bool) (h : exn -> M A) : M A :=
  fun w =>
    match m w with
    | (Ret a, w') => (Ret a, w')
    | (Raise e, w') => if classes e then h e w' else (Raise e, w')
    end.

Notation "x <- m ;; k" := (bind m (fun x => k))
  (at level 61, m at next level, right associativity).
Notation "m ;;; k" := (bind m (fun _ => k))
  (at level 61, right associativity).

Definition emit (l : Level) (msg : string) : M unit :=
  fun w => (Ret tt, mkWorld (fs w) (log w ++ [(l, msg)]) (probes w)).

(** The root logger is configured at level INFO, so the three severities
    the module uses are all emitted. *)
Definition logging_error : string -> M unit := emit ERROR.
Definition logging_warning : string -> M unit := emit WARNING.
Definition logging_info : string -> M unit := emit INFO.

(** A query that is answered. *)
Definition query {A} (q : Probe) (answer : FileSystem -> A) : M A :=
  fun w => (Ret (answer (fs w)), mkWorld (fs w) (log w) (probes w ++ [q])).

(** A query that starts with the [stat] of [p]: it raises when the [stat]
    is refused, and is answered otherwise. *)
Definition stat_query {A} (q : Probe) (p : Path) (answer : FileSystem -> A) : M A :=
  fun w =>
    match stat_error (fs w) p with
    | Some e => (Raise e, mkWorld (fs w) (log w) (probes w ++ [q]))
    | None => query q answer w
    end.

Definition path_exists (p : Path) : M bool :=
  stat_query (PExists p) p (fun f => exists_b f p).
Definition path_is_dir (p : Path) : M bool :=
  stat_query (PIsDir p) p (fun f => is_dir_b f p).
Definition path_is_file (p : Path) : M bool :=
  stat_query (PIsFile p) p (fun f => is_file_b f p).

(** [list(path.glob("*"))], which asks [path.is_dir()] before it scans. *)
Definition path_glob_star (p : Path) : M (list Path) :=
  stat_query (PGlob p) p (fun f => glob_star f p).

(** ** [validate_path_exists] *)

Definition validate_path_exists (path : Path) (is_dir : bool) (path_name : string) : M bool :=
  e <- path_exists path ;;
  if negb e then
    logging_error (path_name ++ " не существует: " ++ path_str path) ;;;
    ret false
  else
    not_a_dir <- (if is_dir then d <- path_is_dir path ;; ret (negb d) else ret false) ;;
    if not_a_dir then
      logging_error (path_name ++ " не является директорией: " ++ path_str path) ;;;
      ret false
    else
      not_a_file <- (if negb is_dir then r <- path_is_file path ;; ret (negb r) else ret false) ;;
      if not_a_file then
        logging_error (path_name ++ " не является файлом: " ++ path_str path) ;;;
        ret false
      else
        ret true.

(** ** The three resolvers *)

Definition find_csv_dir_files_china (project_dir : Path) : M (Path * Path * Path) :=
  ok <- validate_path_exists project_dir true "Project directory" ;;
  if negb ok then
    raise (FileNotFoundError ("Project directory not found: " ++ path_str project_dir))
  else
  let data_dir := project_dir // "data" in
  ok <- validate_path_exists data_dir true "Data directory" ;;
  if negb ok then
    raise (FileNotFoundError ("Data directory not found: " ++ path_str data_dir))
  else
  let dataset_dir := data_dir // "china_12_lead" in
  ok <- validate_path_exists dataset_dir true "Dataset directory" ;;
  if negb ok then
    raise (FileNotFoundError ("Dataset directory not found: " ++ path_str dataset_dir))
  else
  let records_dir := dataset_dir // "records" in
  ok <- validate_path_exists records_dir true "Records directory" ;;
  if negb ok then
    raise (FileNotFoundError ("Records directory not found: " ++ path_str records_dir))
  else
  let metadata_file := dataset_dir // "metadata.csv" in
  ok <- validate_path_exists metadata_file false "Metadata file" ;;
  if negb ok then
    raise (FileNotFoundError ("Metadata file not found: " ++ path_str metadata_file))
  else
  let code_file := dataset_dir // "code.csv" in
  ok <- validate_path_exists code_file false "Code file" ;;
  if negb ok then
    raise (FileNotFoundError ("Code file not found: " ++ path_str code_file))
  else
  logging_info "Successfully validated all paths for china_12_lead dataset" ;;;
  ret (records_dir, metadata_file, code_file).

Definition find_csv_dir_files_ptb_xl (project_dir : Path) : M (Path * Path * Path * Path) :=
  ok <- validate_path_exists project_dir true "Project directory" ;;
  if negb ok then
    raise (FileNotFoundError ("Project directory not found: " ++ path_str project_dir))
  else
  let data_dir := project_dir // "data" in
  ok <- validate_path_exists data_dir true "Data directory" ;;
  if negb ok then
    raise (FileNotFoundError ("Data directory not found: " ++ path_str data_dir))
  else
  let dataset_dir := data_dir // "ptb_xl" in
  ok <- validate_path_exists dataset_dir true "Dataset directory" ;;
  if negb ok then
    raise (FileNotFoundError ("Dataset directory not found: " ++ path_str dataset_dir))
  else
  let records100_dir := dataset_dir // "records100" in
  let records500_dir := dataset_dir // "records500" in
  let records_found := false in
  ok100 <- validate_path_exists records100_dir true "Records100 directory" ;;
  records_found <-
    (if ok100 then
       logging_info ("Found low resolution records: " ++ path_str records100_dir) ;;;
       ret true
     else ret records_found) ;;
  ok500 <- validate_path_exists records500_dir true "Records500 directory" ;;
  records_found <-
    (if ok500 then
       logging_info ("Found high resolution records: " ++ path_str records500_dir) ;;;
       ret true
     else ret records_found) ;;
  if negb records_found then
    raise (FileNotFoundError
             ("No record directories found in " ++ path_str dataset_dir ++ ". "
              ++ "Checked: " ++ path_str records100_dir ++ ", " ++ path_str records500_dir))
  else
  let metadata_file := dataset_dir // "ptbxl_database.csv" in
  ok <- validate_path_exists metadata_file false "Metadata file" ;;
  if negb ok then
    raise (FileNotFoundError ("Metadata file not found: " ++ path_str metadata_file))
  else
  let code_file := dataset_dir // "scp_statements.csv" in
  ok <- validate_path_exists code_file false "Code file" ;;
  if negb ok then
    raise (FileNotFoundError ("Code file not found: " ++ path_str code_file))
  else
  logging_info "Successfully validated all paths for ptb_xl dataset" ;;;
  ret (records100_dir, records500_dir, metadata_file, code_file).

Definition find_dirs_mit_bih (project_dir : Path) : M (Path * Path) :=
  ok <- validate_path_exists project_dir true "Project directory" ;;
  if negb ok then
    raise (FileNotFoundError ("Project directory not found: " ++ path_str project_dir))
  else
  let data_dir := project_dir // "data" in
  ok <- validate_path_exists data_dir true "Data directory" ;;
  if negb ok then
    raise (FileNotFoundError ("Data directory not found: " ++ path_str data_dir))
  else
  let mit_bih_dir := data_dir // "mit_bih" in
  ok <- validate_path_exists mit_bih_dir true "MIT-BIH directory" ;;
  if negb ok then
    raise (FileNotFoundError ("MIT-BIH directory not found: " ++ path_str mit_bih_dir))
  else
  let x_mit_bih_dir := mit_bih_dir // "x_mitdb" in
  ok <- validate_path_exists x_mit_bih_dir true "X-MITDB directory" ;;
  (if negb ok then
     logging_warning ("X-MITDB directory not found: " ++ path_str x_mit_bih_dir) ;;;
     logging_info "Checking MIT-BIH root directory for files..." ;;;
     files <- path_glob_star mit_bih_dir ;;
     match files with
     | [] =>
         raise (FileNotFoundError
                  ("No files found in MIT-BIH directory: " ++ path_str mit_bih_dir))
     | _ :: _ =>
         logging_info ("Found " ++ nat_str (length files)
                       ++ " files/directories in MIT-BIH root directory")
     end
   else ret tt) ;;;
  logging_info "Successfully validated MIT-BIH dataset paths" ;;;
  ret (mit_bih_dir, x_mit_bih_dir).

(** ** The dispatch wrapper *)

(** [str.lower()] on ASCII text.  The three names the wrapper compares with
    are ASCII and no character outside ASCII lowers to one of their
    letters, so bytes above 127 (UTF-8 of other characters) are left as
    they are. *)
Definition lower_ascii (c : ascii) : ascii :=
  let n := nat_of_ascii c in
  if ((65 <=? n) && (n <=? 90))%nat then ascii_of_nat (n + 32) else c.

Fixpoint lower (s : string) : string :=
  match s with
  | EmptyString => EmptyString
  | String c rest => String (lower_ascii c) (lower rest)
  end.

(** The tuples the wrapper can return. *)
Inductive FoundPaths : Type :=
| ChinaPaths (t : Path * Path * Path)
| PtbXlPaths (t : Path * Path * Path * Path)
| MitBihPaths (t : Path * Path).

Definition fmap {A B} (g : A -> B) (m : M A) : M B := x <- m ;; ret (g x).

(** The body of the [try] block. *)
Definition dispatch (dataset_name : string) (project_dir : Path) : M FoundPaths :=
  if String.eqb (lower dataset_name) "china" then
    fmap ChinaPaths (find_csv_dir_files_china project_dir)
  else if String.eqb (lower dataset_name) "ptb_xl" then
    fmap PtbXlPaths (find_csv_dir_files_ptb_xl project_dir)
  else if String.eqb (lower dataset_name) "mit_bih" then
    fmap MitBihPaths (find_dirs_mit_bih project_dir)
  else
    raise (ValueError ("Unknown dataset name: " ++ dataset_name ++ ". "
                       ++ "Available: 'china', 'ptb_xl', 'mit_bih'")).

(** [except (FileNotFoundError, ValueError)] *)
Definition caught (e : exn) : bool :=
  match e with
  | FileNotFoundError _ | ValueError _ => true
  | OSError _ _ _ => false
  end.

Definition safe_find_paths (dataset_name : string) (project_dir : Path) : M FoundPaths :=
  try_except (dispatch dataset_name project_dir) caught
    (fun e =>
       logging_error ("Failed to find paths for dataset '" ++ dataset_name ++ "': "
                      ++ exn_str e) ;;;
       raise e).

(** * Vocabulary of the properties *)

(** ** The world after a run *)

(** Every operation of the module leaves the file system as it is and only
    appends to the log and to the trace. *)
Definition after (w : World) (ls : list LogLine) (qs : list Probe) : World :=
  mkWorld (fs w) (log w ++ ls) (probes w ++ qs).

(** What a run added to the log and to the trace. *)
Definition new_log (w w' : World) : list LogLine := skipn (length (log w)) (log w').
Definition new_probes (w w' : World) : list Probe := skipn (length (probes w)) (probes w').

(** ** The validator as a function of the file system *)

(** The outcome of a validation, the line it logs and the queries it
    issues. *)
Definition path_ok (f : FileSystem) (p : Path) (is_dir : bool) : bool :=
  exists_b f p && (if is_dir then is_dir_b f p else is_file_b f p).

Definition validate_lines (f : FileSystem) (p : Path) (is_dir : bool) (name : string)
  : list LogLine :=
  if negb (exists_b f p) then [(ERROR, name ++ " не существует: " ++ path_str p)]
  else if is_dir then
    if is_dir_b f p then []
    else [(ERROR, name ++ " не является директорией: " ++ path_str p)]
  else
    if is_file_b f p then []
    else [(ERROR, name ++ " не является файлом: " ++ path_str p)].

Definition validate_probes (f : FileSystem) (p : Path) (is_dir : bool) : list Probe :=
  if exists_b f p then [PExists p; if is_dir then PIsDir p else PIsFile p]
  else [PExists p].

(** ** The success chains of the specification *)

(** One step of a resolver's chain: a path that is required with a given
    kind, two directories of which at least one is required, or a
    directory that may be replaced by a non-empty parent. *)
Inductive Step : Type :=
| Required (label : string) (p : Path) (is_dir : bool)
| OneOfDirs (parent p1 p2 : Path)
| DirOrEntries (p parent : Path).

Definition step_ok (f : FileSystem) (s : Step) : bool :=
  match s with
  | Required _ p d => path_ok f p d
  | OneOfDirs _ p1 p2 => is_dir_b f p1 || is_dir_b f p2
  | DirOrEntries p parent =>
      is_dir_b f p || match listdir f parent with [] => false | _ :: _ => true end
  end.

(** The paths a step brings into the chain. *)
Definition step_paths (s : Step) : list Path :=
  match s with
  | Required _ p _ => [p]
  | OneOfDirs _ p1 p2 => [p1; p2]
  | DirOrEntries p _ => [p]
  end.

(** The missing-path error of a step. *)
Definition step_error (s : Step) : exn :=
  match s with
  | Required label p _ => FileNotFoundError (label ++ " not found: " ++ path_str p)
  | OneOfDirs parent p1 p2 =>
      FileNotFoundError ("No record directories found in " ++ path_str parent ++ ". "
                         ++ "Checked: " ++ path_str p1 ++ ", " ++ path_str p2)
  | DirOrEntries _ parent =>
      FileNotFoundError ("No files found in MIT-BIH directory: " ++ path_str parent)
  end.

Inductive Dataset : Type := China | PtbXl | MitBih.

Definition chain (d : Dataset) (r : Path) : list Step :=
  match d with
  | China =>
      let ds := r // "data" // "china_12_lead" in
      [Required "Project directory" r true;
       Required "Data directory" (r // "data") true;
       Required "Dataset directory" ds true;
       Required "Records directory" (ds // "records") true;
       Required "Metadata file" (ds // "metadata.csv") false;
       Required "Code file" (ds // "code.csv") false]
  | PtbXl =>
      let ds := r // "data" // "ptb_xl" in
      [Required "Project directory" r true;
       Required "Data directory" (r // "data") true;
       Required "Dataset directory" ds true;
       OneOfDirs ds (ds // "records100") (ds // "records500");
       Required "Metadata file" (ds // "ptbxl_database.csv") false;
       Required "Code file" (ds // "scp_statements.csv") false]
  | MitBih =>
      let m := r // "data" // "mit_bih" in
      [Required "Project directory" r true;
       Required "Data directory" (r // "data") true;
       Required "MIT-BIH directory" m true;
       DirOrEntries (m // "x_mitdb") m]
  end.

(** The resolver of a dataset, its tuple injected into [FoundPaths]. *)
Definition resolver (d : Dataset) (r : Path) : M FoundPaths :=
  match d with
  | China => fmap ChinaPaths (find_csv_dir_files_china r)
  | PtbXl => fmap PtbXlPaths (find_csv_dir_files_ptb_xl r)
  | MitBih => fmap MitBihPaths (find_dirs_mit_bih r)
  end.

(** The path [suffix] components below [r]; the paths of a chain are of
    this form, with the suffixes listed in [chain_suffixes]. *)
Definition under (r : Path) (suffix : list string) : Path :=
  mkPath (absolute r) (parts r ++ suffix).

Definition chain_suffixes (d : Dataset) : list (list string) :=
  match d with
  | China =>
      [[]; ["data"]; ["data"; "china_12_lead"]; ["data"; "china_12_lead"; "records"];
       ["data"; "china_12_lead"; "metadata.csv"]; ["data"; "china_12_lead"; "code.csv"]]
  | PtbXl =>
      [[]; ["data"]; ["data"; "ptb_xl"]; ["data"; "ptb_xl"; "records100"];
       ["data"; "ptb_xl"; "records500"]; ["data"; "ptb_xl"; "ptbxl_database.csv"];
       ["data"; "ptb_xl"; "scp_statements.csv"]]
  | MitBih =>
      [[]; ["data"]; ["data"; "mit_bih"]; ["data"; "mit_bih"; "x_mitdb"]]
  end.

(** ** Names *)

(** [a] is the character [c] in some casing: [c] itself, or its capital
    when [c] is a small letter. *)
Definition is_small_letter (c : ascii) : bool :=
  let n := nat_of_ascii c in ((97 <=? n) && (n <=? 122))%nat.

Definition capital_of (c : ascii) : ascii := ascii_of_nat (nat_of_ascii c - 32).

Definition casing_char (a c : ascii) : bool :=
  Ascii.eqb a c || (is_small_letter c && Ascii.eqb a (capital_of c)).

(** [name] is [canonical] in some casing, letter by letter. *)
Fixpoint casing (name canonical : string) : bool :=
  match name, canonical with
  | EmptyString, EmptyString => true
  | String a name', String c canonical' => casing_char a c && casing name' canonical'
  | _, _ => false
  end.

(** Every character satisfies a test. *)
Definition all_ascii (test : ascii -> bool) : bool :=
  forallb (fun n => test (ascii_of_nat n)) (seq 0 256).

(** An entry name that begins with a dot. *)
Definition hidden (name : string) : bool := String.prefix "." name.

Definition dataset_names : list string := ["china"; "ptb_xl"; "mit_bih"].

(** The name of a dataset, as the wrapper spells it. *)
Definition dataset_name_of (d : Dataset) : string :=
  match d with
  | China => "china"
  | PtbXl => "ptb_xl"
  | MitBih => "mit_bih"
  end.

Definition unknown_dataset (dataset_name : string) : exn :=
  ValueError ("Unknown dataset name: " ++ dataset_name ++ ". "
              ++ "Available: 'china', 'ptb_xl', 'mit_bih'").

(** ** Calls that do not depend on earlier calls *)

(** The world in which nothing has been logged or queried yet. *)
Definition blank (f : FileSystem) : World := mkWorld f [] [].

(** A computation whose result, log lines and queries are a function of the
    file system alone, and which leaves the file system as it is: started
    in any world, it does what it does in the blank world over the same
    file system. *)
Definition Stateless {A} (m : M A) : Prop :=
  forall w,
    m w = (fst (m (blank (fs w))),
           after w (log (snd (m (blank (fs w))))) (probes (snd (m (blank (fs w)))))).

(** ** Sample file systems *)

Definition root_dir : Path := mkPath true ["proj"].

(** A populated China layout under [/proj], and nothing else. *)
Definition china_tree : Node :=
  Dir [("proj", Dir [("data", Dir [("china_12_lead",
          Dir [("records", Dir []); ("metadata.csv", File); ("code.csv", File)])])])].

(** A PTB-XL layout with the low resolution records only. *)
Definition ptb_xl_tree : Node :=
  Dir [("proj", Dir [("data", Dir [("ptb_xl",
          Dir [("records100", Dir [("00000", Dir [])]);
               ("ptbxl_database.csv", File);
               ("scp_statements.csv", File)])])])].

(** MIT-BIH with the record files in [mit_bih] itself, no [x_mitdb]. *)
Definition mit_bih_tree : Node :=
  Dir [("proj", Dir [("data", Dir [("mit_bih",
          Dir [("100.dat", File); ("100.hea", File)])])])].

(** MIT-BIH with a single hidden entry in [mit_bih]. *)
Definition mit_bih_hidden_tree : Node :=
  Dir [("proj", Dir [("data", Dir [("mit_bih", Dir [(".gitkeep", File)])])])].

(** A name of 256 bytes, one more than [NAME_MAX], and a project
    directory by that name under [/proj]. *)
Definition long_name : string := String.concat "" (repeat "a" 256).

Definition long_root : Path := root_dir // long_name.

(** MIT-BIH with its record files in a [mit_bih] that can be searched but
    not read. *)
Definition mit_bih_unreadable_tree : Node :=
  Dir [("proj", Dir [("data", Dir [("mit_bih",
          SearchOnlyDir [("100.dat", File); ("100.hea", File)])])])].

(** The world over the tree [t], current directory [/], before any call. *)
Definition w0 (t : Node) : World := mkWorld (mkFS t []) [] [].

(** ** More sample file systems *)

(** MIT-BIH where [x_mitdb] is a regular file. *)
Definition mit_bih_x_file_tree : Node :=
  Dir [("proj", Dir [("data", Dir [("mit_bih", Dir [("x_mitdb", File)])])])].

(** The China layout of [china_tree] beside other content, in the project
    directory and in the dataset directory. *)
Definition china_busy_tree : Node :=
  Dir [("proj", Dir [("notes.txt", File);
                     ("data", Dir [("ptb_xl", Dir []);
                                   ("china_12_lead",
                                    Dir [("records", Dir [("A0001.mat", File)]);
                                         ("metadata.csv", File);
                                         ("code.csv", File);
                                         ("README", File)])])]);
       ("tmp", Dir [])].

(** ** What a resolver returns and what it may query *)

(** The tuple of a dataset under [r]. *)
Definition layout_paths (d : Dataset) (r : Path) : FoundPaths :=
  match d with
  | China =>
      let ds := r // "data" // "china_12_lead" in
      ChinaPaths (ds // "records", ds // "metadata.csv", ds // "code.csv")
  | PtbXl =>
      let ds := r // "data" // "ptb_xl" in
      PtbXlPaths (ds // "records100", ds // "records500",
                  ds // "ptbxl_database.csv", ds // "scp_statements.csv")
  | MitBih =>
      let m := r // "data" // "mit_bih" in
      MitBihPaths (m, m // "x_mitdb")
  end.

(** A query that lists a directory. *)
Definition is_listing (q : Probe) : bool :=
  match q with
  | PGlob _ => true
  | _ => false
  end.

(** The first step of a chain that fails, if any. *)
Fixpoint first_failing (f : FileSystem) (steps : list Step) : option Step :=
  match steps with
  | [] => None
  | s :: rest => if step_ok f s then first_failing f rest else Some s
  end.

(** ** What a resolver logs and queries along its chain *)

(** The lines one step logs. *)
Definition step_lines (f : FileSystem) (s : Step) : list LogLine :=
  match s with
  | Required label p d => validate_lines f p d label
  | OneOfDirs _ p1 p2 =>
      validate_lines f p1 true "Records100 directory"
      ++ (if is_dir_b f p1
          then [(INFO, "Found low resolution records: " ++ path_str p1)] else [])
      ++ validate_lines f p2 true "Records500 directory"
      ++ (if is_dir_b f p2
          then [(INFO, "Found high resolution records: " ++ path_str p2)] else [])
  | DirOrEntries p parent =>
      validate_lines f p true "X-MITDB directory"
      ++ (if is_dir_b f p then []
          else
            [(WARNING, "X-MITDB directory not found: " ++ path_str p);
             (INFO, "Checking MIT-BIH root directory for files...")]
            ++ match listdir f parent with
               | [] => []
               | _ :: _ =>
                   [(INFO, "Found " ++ nat_str (length (listdir f parent))
                           ++ " files/directories in MIT-BIH root directory")]
               end)
  end.

(** The queries one step issues. *)
Definition step_probes (f : FileSystem) (s : Step) : list Probe :=
  match s with
  | Required _ p d => validate_probes f p d
  | OneOfDirs _ p1 p2 => validate_probes f p1 true ++ validate_probes f p2 true
  | DirOrEntries p parent =>
      validate_probes f p true ++ (if is_dir_b f p then [] else [PGlob parent])
  end.

(** The lines and the queries of a chain: those of its steps, up to and
    including the first one that fails. *)
Fixpoint chain_lines (f : FileSystem) (steps : list Step) : list LogLine :=
  match steps with
  | [] => []
  | s :: rest => step_lines f s ++ (if step_ok f s then chain_lines f rest else [])
  end.

Fixpoint chain_probes (f : FileSystem) (steps : list Step) : list Probe :=
  match steps with
  | [] => []
  | s :: rest => step_probes f s ++ (if step_ok f s then chain_probes f rest else [])
  end.

(** The line a resolver logs before it returns. *)
Definition success_line (d : Dataset) : LogLine :=
  match d with
  | China => (INFO, "Successfully validated all paths for china_12_lead dataset")
  | PtbXl => (INFO, "Successfully validated all paths for ptb_xl dataset")
  | MitBih => (INFO, "Successfully validated MIT-BIH dataset paths")
  end.

(** The result, the lines and the queries of a resolver.  A refused
    [stat] of the project directory ends the call at its first query;
    otherwise the chain decides. *)
Definition resolver_result (d : Dataset) (f : FileSystem) (r : Path) : Result FoundPaths :=
  match stat_error f r with
  | Some e => Raise e
  | None =>
      match first_failing f (chain d r) with
      | None => Ret (layout_paths d r)
      | Some s => Raise (step_error s)
      end
  end.

Definition resolver_lines (d : Dataset) (f : FileSystem) (r : Path) : list LogLine :=
  match stat_error f r with
  | Some _ => []
  | None =>
      chain_lines f (chain d r)
      ++ match first_failing f (chain d r) with
         | None => [success_line d]
         | Some _ => []
         end
  end.

Definition resolver_probes (d : Dataset) (f : FileSystem) (r : Path) : list Probe :=
  match stat_error f r with
  | Some _ => [PExists r]
  | None => chain_probes f (chain d r)
  end.

(** ** The wrapper and the file system seen from a resolver *)

(** The dataset a name stands for, if any: the comparisons of the wrapper,
    in its order. *)
Definition dataset_of (dataset_name : string) : option Dataset :=
  if String.eqb (lower dataset_name) "china" then Some China
  else if String.eqb (lower dataset_name) "ptb_xl" then Some PtbXl
  else if String.eqb (lower dataset_name) "mit_bih" then Some MitBih
  else None.

(** Two file systems in which the queries of a path have the same
    outcome: refused or not, there or not, directory or not, regular file
    or not. *)
Definition same_kind (f1 f2 : FileSystem) (p : Path) : Prop :=
  stat_error f1 p = stat_error f2 p
  /\ exists_b f1 p = exists_b f2 p
  /\ is_dir_b f1 p = is_dir_b f2 p
  /\ is_file_b f1 p = is_file_b f2 p.

(** * Properties *)

(** ** The world after a run *)

Lemma skipn_length_app {A} (l x : list A) : skipn (length l) (l ++ x) = x.
Proof. induction l as [|a l IH]; simpl; auto. Qed.

Lemma fs_after w ls qs : fs (after w ls qs) = fs w.
Proof. reflexivity. Qed.

Lemma after_after w l1 q1 l2 q2 :
  after (after w l1 q1) l2 q2 = after w (l1 ++ l2) (q1 ++ q2).
Proof. unfold after; simpl. now rewrite <- !app_assoc. Qed.

Lemma after_nil w : after w [] [] = w.
Proof. destruct w; unfold after; simpl. now rewrite !app_nil_r. Qed.

Lemma new_log_after w ls qs : new_log w (after w ls qs) = ls.
Proof. apply skipn_length_app. Qed.

Lemma new_probes_after w ls qs : new_probes w (after w ls qs) = qs.
Proof. apply skipn_length_app. Qed.

(** ** The validator as a function of the file system *)

(** *** Queries that are answered, queries that are refused *)

Lemma walk_app up cur ps qs :
  walk up cur (ps ++ qs)
  = match walk up cur ps with
    | Found up' cur' => walk up' cur' qs
    | NotFound => NotFound
    | NameTooLong => NameTooLong
    end.
Proof.
  revert up cur. induction ps as [|c ps IH]; intros up cur; cbn [app walk]; [reflexivity|].
  destruct (dir_entries cur) as [entries|]; [|reflexivity].
  destruct (String.eqb c "..").
  - destruct up; apply IH.
  - destruct (name_too_long c); [reflexivity|].
    destruct (lookup_entry c entries); [apply IH | reflexivity].
Qed.

Lemma walked_joinpath f p n : walked f (p // n) = (walked f p ++ [n])%list.
Proof.
  unfold walked, joinpath. cbn [absolute parts].
  destruct (absolute p); now rewrite ?app_assoc.
Qed.

(** A path that resolves has had its [stat] answered. *)
Lemma resolved_answered f p : resolve f p <> None -> stat_error f p = None.
Proof.
  unfold resolve, stat_error.
  destruct (walk [] (fs_root f) (walked f p)); congruence.
Qed.

Lemma exists_answered f p : exists_b f p = true -> stat_error f p = None.
Proof.
  intros H. apply resolved_answered. unfold exists_b in H.
  destruct (resolve f p); congruence.
Qed.

Lemma is_dir_answered f p : is_dir_b f p = true -> stat_error f p = None.
Proof.
  intros H. apply resolved_answered. unfold is_dir_b in H.
  destruct (resolve f p); congruence.
Qed.

Lemma is_file_answered f p : is_file_b f p = true -> stat_error f p = None.
Proof.
  intros H. apply resolved_answered. unfold is_file_b in H.
  destruct (resolve f p); congruence.
Qed.

(** Below a path whose [stat] is answered, a name within [NAME_MAX] is
    answered too. *)
Lemma stat_error_joinpath f p n :
  stat_error f p = None -> name_too_long n = false -> stat_error f (p // n) = None.
Proof.
  unfold stat_error. rewrite walked_joinpath, walk_app. intros Hp Hn.
  destruct (walk [] (fs_root f) (walked f p)) as [up cur| |]; [|reflexivity|discriminate].
  cbn [walk]. destruct (dir_entries cur) as [entries|]; [|reflexivity].
  destruct (String.eqb n ".."); [now destruct up|].
  rewrite Hn. now destruct (lookup_entry n entries).
Qed.

(** The [stat] of a path is answered: by hypothesis, by an answer it is
    known to give, or because it names an entry of such a path. *)
Ltac answered :=
  first
    [ assumption
    | apply is_dir_answered; assumption
    | apply is_file_answered; assumption
    | apply exists_answered; assumption
    | apply stat_error_joinpath; [answered | reflexivity] ].

(** *** The validator, answered or refused *)

Lemma stat_query_answered {A} q p (answer : FileSystem -> A) w :
  stat_error (fs w) p = None -> stat_query q p answer w = query q answer w.
Proof. unfold stat_query. now intros ->. Qed.

Lemma validate_run path is_dir path_name w :
  stat_error (fs w) path = None ->
  validate_path_exists path is_dir path_name w =
  (Ret (path_ok (fs w) path is_dir),
   after w (validate_lines (fs w) path is_dir path_name)
           (validate_probes (fs w) path is_dir)).
Proof.
  intros Hp.
  unfold validate_path_exists, path_ok, validate_lines, validate_probes, bind,
    path_exists, path_is_dir, path_is_file, stat_query, query, logging_error, emit, ret,
    after.
  destruct w as [f l q]; cbn [fs log probes] in *. rewrite Hp.
  destruct (exists_b f path); simpl.
  - destruct is_dir; simpl; rewrite Hp.
    + destruct (is_dir_b f path); simpl; now rewrite ?app_nil_r, <- ?app_assoc.
    + destruct (is_file_b f path); simpl; now rewrite ?app_nil_r, <- ?app_assoc.
  - reflexivity.
Qed.

(** A refused [stat] leaves the validator at its first query, before any
    line is logged. *)
Lemma validate_refused path is_dir path_name w e :
  stat_error (fs w) path = Some e ->
  validate_path_exists path is_dir path_name w = (Raise e, after w [] [PExists path]).
Proof.
  intros Hp. unfold validate_path_exists, bind, path_exists, stat_query, after.
  rewrite Hp. now rewrite app_nil_r.
Qed.

Lemma bind_validate {B} path is_dir path_name (k : bool -> M B) w :
  stat_error (fs w) path = None ->
  bind (validate_path_exists path is_dir path_name) k w =
  k (path_ok (fs w) path is_dir)
    (after w (validate_lines (fs w) path is_dir path_name)
             (validate_probes (fs w) path is_dir)).
Proof. intros Hp. unfold bind. now rewrite validate_run. Qed.

Lemma bind_validate_refused {B} path is_dir path_name (k : bool -> M B) w e :
  stat_error (fs w) path = Some e ->
  bind (validate_path_exists path is_dir path_name) k w
  = (Raise e, after w [] [PExists path]).
Proof. intros Hp. unfold bind. now rewrite (validate_refused _ _ _ _ e Hp). Qed.

Lemma is_dir_exists f p : is_dir_b f p = true -> exists_b f p = true.
Proof. unfold is_dir_b, exists_b. now destruct (resolve f p) as [[]|]. Qed.

Lemma is_file_exists f p : is_file_b f p = true -> exists_b f p = true.
Proof. unfold is_file_b, exists_b. now destruct (resolve f p) as [[]|]. Qed.

Lemma path_ok_dir f p : path_ok f p true = is_dir_b f p.
Proof.
  unfold path_ok. destruct (is_dir_b f p) eqn:E.
  - now rewrite (is_dir_exists _ _ E).
  - apply andb_false_r.
Qed.

Lemma path_ok_file f p : path_ok f p false = is_file_b f p.
Proof.
  unfold path_ok. destruct (is_file_b f p) eqn:E.
  - now rewrite (is_file_exists _ _ E).
  - apply andb_false_r.
Qed.

Lemma validate_lines_ok f p d n : path_ok f p d = true -> validate_lines f p d n = [].
Proof.
  unfold path_ok, validate_lines. intros H. apply andb_prop in H as [-> H]. simpl.
  destruct d; now rewrite H.
Qed.

Lemma validate_probes_exists f p d : In (PExists p) (validate_probes f p d).
Proof. unfold validate_probes. destruct (exists_b f p); simpl; auto. Qed.

(** A failed validation logs one ERROR line, which ends with the path. *)
Lemma validate_lines_fail f p d n :
  path_ok f p d = false ->
  exists reason, validate_lines f p d n = [(ERROR, n ++ reason ++ path_str p)].
Proof.
  unfold path_ok, validate_lines. destruct (exists_b f p); cbn [andb negb].
  - destruct d; intros ->; eexists; reflexivity.
  - intros _. eexists; reflexivity.
Qed.

Lemma validate_probes_ok f p d :
  path_ok f p d = true ->
  validate_probes f p d = [PExists p; if d then PIsDir p else PIsFile p].
Proof.
  unfold path_ok, validate_probes. intros H. now apply andb_prop in H as [-> _].
Qed.

Lemma validate_probes_path f p d q :
  In q (validate_probes f p d) -> probe_path q = p.
Proof.
  unfold validate_probes. destruct (exists_b f p), d; simpl; intuition (subst; auto).
Qed.




(** ** Running a resolver step by step *)

Lemma bind_emit {B} l msg (k : unit -> M B) w :
  bind (emit l msg) k w = k tt (after w [(l, msg)] []).
Proof. unfold bind, emit, after. simpl. now rewrite app_nil_r. Qed.

Lemma bind_query {A B} q p (answer : FileSystem -> A) (k : A -> M B) w :
  stat_error (fs w) p = None ->
  bind (stat_query q p answer) k w = k (answer (fs w)) (after w [] [q]).
Proof.
  intros Hp. unfold bind. rewrite (stat_query_answered _ _ _ _ Hp).
  unfold query, after. simpl. now rewrite app_nil_r.
Qed.

Lemma bind_ret {A B} (a : A) (k : A -> M B) w : bind (ret a) k w = k a w.
Proof. reflexivity. Qed.

Lemma bind_bind {A B C} (m : M A) (k : A -> M B) (h : B -> M C) w :
  bind (bind m k) h w = bind m (fun a => bind (k a) h) w.
Proof. unfold bind. destruct (m w) as [[a|e] w']; reflexivity. Qed.

Create Rewrite HintDb world.
#[local] Hint Rewrite fs_after after_after @new_log_after @new_probes_after : world.

(** One validation whose outcome [H] is known. *)
Ltac validated H :=
  rewrite bind_validate by (autorewrite with world; answered); autorewrite with world;
  rewrite ?path_ok_dir, ?path_ok_file; rewrite H; cbn [negb].

Ltac logged :=
  unfold logging_info, logging_warning, logging_error;
  rewrite bind_emit; autorewrite with world.

Lemma validate_lines_dir f p n : is_dir_b f p = true -> validate_lines f p true n = [].
Proof. intros H. apply validate_lines_ok. now rewrite path_ok_dir. Qed.

Lemma validate_lines_file f p n : is_file_b f p = true -> validate_lines f p false n = [].
Proof. intros H. apply validate_lines_ok. now rewrite path_ok_file. Qed.

Lemma validate_probes_dir f p :
  is_dir_b f p = true -> validate_probes f p true = [PExists p; PIsDir p].
Proof. intros H. apply validate_probes_ok. now rewrite path_ok_dir. Qed.

Lemma validate_probes_file f p :
  is_file_b f p = true -> validate_probes f p false = [PExists p; PIsFile p].
Proof. intros H. apply validate_probes_ok. now rewrite path_ok_file. Qed.

Lemma validate_lines_not_dir f p n :
  is_dir_b f p = false ->
  validate_lines f p true n
  = [(ERROR, n ++ (if exists_b f p then " не является директорией: " else " не существует: ")
             ++ path_str p)].
Proof. unfold validate_lines. intros ->. now destruct (exists_b f p). Qed.

Lemma validate_lines_not_file f p n :
  is_file_b f p = false ->
  validate_lines f p false n
  = [(ERROR, n ++ (if exists_b f p then " не является файлом: " else " не существует: ")
             ++ path_str p)].
Proof. unfold validate_lines. intros ->. now destruct (exists_b f p). Qed.

(** The log and the trace of the validations that passed. *)
Ltac passed :=
  rewrite ?validate_lines_dir, ?validate_lines_file,
          ?validate_probes_dir, ?validate_probes_file by assumption.

(** The log lines of the validations whose outcome is known. *)
Ltac lines :=
  rewrite ?validate_lines_dir, ?validate_lines_file,
          ?validate_lines_not_dir, ?validate_lines_not_file by assumption.

(** ** China: the populated layout *)

(** C6.  On a fully populated China layout the resolver queries the
    project directory, [data], [data/china_12_lead], its [records]
    directory, [metadata.csv] and [code.csv] in that order and returns the
    triple of the last three paths; it logs its success line and nothing
    else. *)
Theorem find_csv_dir_files_china_full_layout (project_dir : Path) (w : World) :
  let dataset_dir := project_dir // "data" // "china_12_lead" in
  is_dir_b (fs w) project_dir = true ->
  is_dir_b (fs w) (project_dir // "data") = true ->
  is_dir_b (fs w) dataset_dir = true ->
  is_dir_b (fs w) (dataset_dir // "records") = true ->
  is_file_b (fs w) (dataset_dir // "metadata.csv") = true ->
  is_file_b (fs w) (dataset_dir // "code.csv") = true ->
  exists w',
    find_csv_dir_files_china project_dir w
    = (Ret (dataset_dir // "records", dataset_dir // "metadata.csv", dataset_dir // "code.csv"),
       w')
    /\ new_probes w w'
       = [PExists project_dir; PIsDir project_dir;
          PExists (project_dir // "data"); PIsDir (project_dir // "data");
          PExists dataset_dir; PIsDir dataset_dir;
          PExists (dataset_dir // "records"); PIsDir (dataset_dir // "records");
          PExists (dataset_dir // "metadata.csv"); PIsFile (dataset_dir // "metadata.csv");
          PExists (dataset_dir // "code.csv"); PIsFile (dataset_dir // "code.csv")]
    /\ new_log w w' = [(INFO, "Successfully validated all paths for china_12_lead dataset")]
    /\ fs w' = fs w.
Proof.
  intros dataset_dir H1 H2 H3 H4 H5 H6. subst dataset_dir.
  unfold find_csv_dir_files_china.
  validated H1. validated H2. validated H3. validated H4. validated H5. validated H6.
  logged. unfold ret.
  passed.
  eexists. split; [reflexivity|]. autorewrite with world. cbn [app].
  repeat split.
Qed.

Lemma find_csv_dir_files_china_full_layout_witness :
  exists w',
    find_csv_dir_files_china root_dir (w0 china_tree)
    = (Ret (mkPath true ["proj"; "data"; "china_12_lead"; "records"],
            mkPath true ["proj"; "data"; "china_12_lead"; "metadata.csv"],
            mkPath true ["proj"; "data"; "china_12_lead"; "code.csv"]), w')
    /\ new_log (w0 china_tree) w'
       = [(INFO, "Successfully validated all paths for china_12_lead dataset")].
Proof.
  destruct (find_csv_dir_files_china_full_layout root_dir (w0 china_tree))
    as [w' [E [_ [L _]]]]; try reflexivity.
  exists w'. split; [exact E | exact L].
Defined.

(** ** Paths of a chain are pairwise distinct *)

Lemma under_inj r s1 s2 : under r s1 = under r s2 -> s1 = s2.
Proof. unfold under. intros H. injection H as H. eapply app_inv_head, H. Qed.

Lemma chain_paths_under d r :
  flat_map step_paths (chain d r) = map (under r) (chain_suffixes d).
Proof.
  destruct r as [a ps].
  destruct d;
    cbn [chain chain_suffixes flat_map step_paths map app];
    unfold under, joinpath; cbn [absolute parts];
    rewrite ?app_nil_r, <- ?app_assoc; reflexivity.
Qed.

Lemma chain_suffixes_NoDup d : NoDup (chain_suffixes d).
Proof.
  destruct d; cbn [chain_suffixes];
    repeat (constructor; [cbn [In]; intuition discriminate|]); constructor.
Qed.

Lemma NoDup_map_under r l : NoDup l -> NoDup (map (under r) l).
Proof.
  induction 1 as [|s l Hn ND IH]; simpl; constructor; auto.
  intros H. apply in_map_iff in H as [s' [E H]].
  apply under_inj in E. now subst.
Qed.

Lemma chain_paths_NoDup d r : NoDup (flat_map step_paths (chain d r)).
Proof.
  rewrite chain_paths_under. apply NoDup_map_under, chain_suffixes_NoDup.
Qed.

Lemma NoDup_app_disjoint {A} (l1 l2 : list A) x :
  NoDup (l1 ++ l2) -> In x l1 -> In x l2 -> False.
Proof.
  induction l1 as [|a l1 IH]; simpl; intros ND H1 H2; [easy|].
  inversion ND as [|? ? Hn ND']; subst. destruct H1 as [->|H1].
  - apply Hn, in_or_app. now right.
  - eauto.
Qed.

(** ** The first failing step *)

Lemma bind_raise {A B} e (k : A -> M B) w : bind (raise e) k w = (Raise e, w).
Proof. reflexivity. Qed.

Ltac known_outcome :=
  match goal with
  | H : is_dir_b _ _ = _ |- _ => rewrite H
  | H : is_file_b _ _ = _ |- _ => rewrite H
  | H : listdir _ _ = _ |- _ => rewrite H
  end.

Ltac run_step :=
  first
    [ rewrite bind_bind
    | rewrite bind_validate by (autorewrite with world; answered);
      autorewrite with world; rewrite ?path_ok_dir, ?path_ok_file
    | match goal with
      | H : stat_error _ ?p = Some ?e
        |- context [bind (validate_path_exists ?p ?d ?n) ?k ?w] =>
          rewrite (bind_validate_refused p d n k w e) by (autorewrite with world; exact H)
      end
    | rewrite bind_emit; autorewrite with world
    | rewrite bind_query by (autorewrite with world; answered); autorewrite with world
    | rewrite bind_ret
    | rewrite bind_raise
    | known_outcome ];
  cbn [negb map].

Ltac run :=
  unfold resolver, fmap, find_csv_dir_files_china, find_csv_dir_files_ptb_xl,
    find_dirs_mit_bih, logging_info, logging_warning, logging_error, path_glob_star,
    glob_star;
  repeat run_step;
  cbv beta delta [ret raise].

(** Splits [l = pre ++ s :: post] for a list [l] given by its elements. *)
Ltac chain_cases :=
  match goal with
  | H : _ :: _ = (?pre ++ _ :: _)%list |- _ =>
      destruct pre; cbn [app] in H; inversion H; clear H; subst; [ | try chain_cases ]
  | H : [] = (?pre ++ _ :: _)%list |- _ => destruct pre; discriminate H
  end.

Ltac split_andb :=
  repeat match goal with
         | H : _ && _ = true |- _ => apply andb_prop in H as [? H]
         | H : _ || _ = false |- _ => apply orb_false_elim in H as [? H]
         end.

Ltac probes_within :=
  let q := fresh "q" in
  let Hin := fresh "Hin" in
  intros q Hin;
  repeat (apply in_app_or in Hin as [Hin|Hin]);
  try (apply validate_probes_path in Hin; rewrite Hin);
  try (destruct Hin as [<-|[]]);
  try (destruct Hin);
  cbn [probe_path flat_map step_paths app In]; tauto.

Lemma first_failure_run (d : Dataset) (r : Path) (w : World) (pre post : list Step) (s : Step) :
  stat_error (fs w) r = None ->
  chain d r = (pre ++ s :: post)%list ->
  forallb (step_ok (fs w)) pre = true ->
  step_ok (fs w) s = false ->
  exists ls qs,
    resolver d r w = (Raise (step_error s), after w ls qs)
    /\ (forall q, In q qs -> In (probe_path q) (flat_map step_paths (pre ++ [s])))
    /\ (exists msg, In (ERROR, msg) ls).
Proof.
  intros Hr Hchain Hpre Hs.
  destruct d; cbn [chain] in Hchain; chain_cases;
    cbn [forallb step_ok] in Hpre, Hs; rewrite ?path_ok_dir, ?path_ok_file in *;
    split_andb.
  all: try match goal with
           | H : is_dir_b ?f ?p1 || is_dir_b ?f ?p2 = true |- _ =>
               destruct (is_dir_b f p1) eqn:?, (is_dir_b f p2) eqn:?;
               try discriminate H; clear H
           end.
  all: try match goal with
           | H : match listdir ?f ?p with [] => false | _ :: _ => true end = false |- _ =>
               destruct (listdir f p) eqn:?; try discriminate H; clear H
           end.
  all: do 2 eexists; split; [run; cbn [step_error map]; reflexivity | ].
  all: split; [probes_within | lines; cbn [app In]; eauto 8].
Qed.

(** A refused [stat] of the project directory leaves the resolver at its
    first query. *)
Lemma resolver_refused (d : Dataset) (r : Path) (w : World) (e : exn) :
  stat_error (fs w) r = Some e ->
  resolver d r w = (Raise e, after w [] [PExists r]).
Proof. intros Hr. destruct d; run; reflexivity. Qed.

Lemma stat_error_uncaught f p e : stat_error f p = Some e -> caught e = false.
Proof.
  unfold stat_error. destruct (walk [] (fs_root f) (walked f p)); try discriminate.
  now intros [= <-].
Qed.

Lemma chain_head (d : Dataset) (r : Path) :
  exists rest, chain d r = Required "Project directory" r true :: rest.
Proof. destruct d; eexists; reflexivity. Qed.




(** ** PTB-XL: the records directories *)

(** C3.  With the project directory, [data] and [data/ptb_xl] in place:
    when at least one of [records100] and [records500] is a directory the
    resolver goes on to check the metadata file, and returns its four
    paths if the two CSV files are there; when neither is a directory it
    raises the missing-path error that names both. *)
Theorem find_csv_dir_files_ptb_xl_records_check (project_dir : Path) (w : World) :
  let ds := project_dir // "data" // "ptb_xl" in
  let out := find_csv_dir_files_ptb_xl project_dir w in
  is_dir_b (fs w) project_dir = true ->
  is_dir_b (fs w) (project_dir // "data") = true ->
  is_dir_b (fs w) ds = true ->
  (is_dir_b (fs w) (ds // "records100") || is_dir_b (fs w) (ds // "records500") = true ->
   In (PExists (ds // "ptbxl_database.csv")) (new_probes w (snd out))
   /\ (is_file_b (fs w) (ds // "ptbxl_database.csv") = true ->
       is_file_b (fs w) (ds // "scp_statements.csv") = true ->
       fst out = Ret (ds // "records100", ds // "records500",
                      ds // "ptbxl_database.csv", ds // "scp_statements.csv")))
  /\ (is_dir_b (fs w) (ds // "records100") || is_dir_b (fs w) (ds // "records500") = false ->
      fst out = Raise (FileNotFoundError
                         ("No record directories found in " ++ path_str ds ++ ". "
                          ++ "Checked: " ++ path_str (ds // "records100") ++ ", "
                          ++ path_str (ds // "records500")))).
Proof.
  intros ds out H1 H2 H3. subst ds out. split.
  - intros Hone.
    destruct (is_dir_b (fs w) (project_dir // "data" // "ptb_xl" // "records100")) eqn:H100,
             (is_dir_b (fs w) (project_dir // "data" // "ptb_xl" // "records500")) eqn:H500;
      try discriminate Hone; clear Hone.
    all: split;
      [ destruct (is_file_b (fs w) (project_dir // "data" // "ptb_xl" // "ptbxl_database.csv")) eqn:Hm;
        [ destruct (is_file_b (fs w) (project_dir // "data" // "ptb_xl" // "scp_statements.csv")) eqn:Hc | ];
        run; cbn [snd]; autorewrite with world;
        pose proof (validate_probes_exists (fs w)
                      (project_dir // "data" // "ptb_xl" // "ptbxl_database.csv") false);
        rewrite ?in_app_iff; tauto
      | intros Hm Hc; run; reflexivity ].
  - intros Hnone. apply orb_false_elim in Hnone as [H100 H500].
    run. reflexivity.
Qed.

Lemma find_csv_dir_files_ptb_xl_records_check_witness :
  fst (find_csv_dir_files_ptb_xl root_dir (w0 ptb_xl_tree))
  = Ret (mkPath true ["proj"; "data"; "ptb_xl"; "records100"],
         mkPath true ["proj"; "data"; "ptb_xl"; "records500"],
         mkPath true ["proj"; "data"; "ptb_xl"; "ptbxl_database.csv"],
         mkPath true ["proj"; "data"; "ptb_xl"; "scp_statements.csv"]).
Proof.
  destruct (find_csv_dir_files_ptb_xl_records_check root_dir (w0 ptb_xl_tree)
              eq_refl eq_refl eq_refl) as [Hone _].
  destruct (Hone eq_refl) as [_ Hret].
  exact (Hret eq_refl eq_refl).
Defined.

Ltac run_in H := revert H; run; intros H.

(** C4.  When the PTB-XL resolver returns, what it returns is the 4-tuple
    of [records100], [records500], [ptbxl_database.csv] and
    [scp_statements.csv] under [data/ptb_xl], both directory paths as
    computed, whether or not they exist: when [records500] does not exist
    (so [records100] is the directory that was found) the second component
    is still that path, and an existence check on it fails, as does a new
    validation. *)
Theorem find_csv_dir_files_ptb_xl_returns_verbatim
    (project_dir : Path) (w w' : World) (t : Path * Path * Path * Path) :
  find_csv_dir_files_ptb_xl project_dir w = (Ret t, w') ->
  let ds := project_dir // "data" // "ptb_xl" in
  t = (ds // "records100", ds // "records500",
       ds // "ptbxl_database.csv", ds // "scp_statements.csv")
  /\ fs w' = fs w
  /\ (exists_b (fs w) (ds // "records500") = false ->
      let '(_, records500_dir, _, _) := t in
      is_dir_b (fs w) (ds // "records100") = true
      /\ records500_dir = ds // "records500"
      /\ exists_b (fs w') records500_dir = false
      /\ fst (validate_path_exists records500_dir true "Records500 directory" w') = Ret false).
Proof.
  intros H ds. subst ds.
  destruct (stat_error (fs w) project_dir) as [e|] eqn:Hr;
    [run_in H; discriminate H|].
  destruct (is_dir_b (fs w) project_dir) eqn:H1;
    [|run_in H; discriminate H].
  destruct (is_dir_b (fs w) (project_dir // "data")) eqn:H2;
    [|run_in H; discriminate H].
  destruct (is_dir_b (fs w) (project_dir // "data" // "ptb_xl")) eqn:H3;
    [|run_in H; discriminate H].
  destruct (is_file_b (fs w) (project_dir // "data" // "ptb_xl" // "ptbxl_database.csv")) eqn:Hm,
           (is_file_b (fs w) (project_dir // "data" // "ptb_xl" // "scp_statements.csv")) eqn:Hc,
           (is_dir_b (fs w) (project_dir // "data" // "ptb_xl" // "records100")) eqn:H100,
           (is_dir_b (fs w) (project_dir // "data" // "ptb_xl" // "records500")) eqn:H500;
    run_in H; try discriminate H; injection H as <- <-.
  all: split; [reflexivity|]; split; [reflexivity|]; intros Hex.
  all: try (apply is_dir_exists in H500; congruence).
  all: rewrite validate_run by (autorewrite with world; answered);
    autorewrite with world; cbn [fst]; rewrite path_ok_dir, H500; auto.
Qed.

Lemma find_csv_dir_files_ptb_xl_returns_verbatim_witness :
  let out := find_csv_dir_files_ptb_xl root_dir (w0 ptb_xl_tree) in
  let records500_dir := mkPath true ["proj"; "data"; "ptb_xl"; "records500"] in
  fst out = Ret (mkPath true ["proj"; "data"; "ptb_xl"; "records100"],
                 records500_dir,
                 mkPath true ["proj"; "data"; "ptb_xl"; "ptbxl_database.csv"],
                 mkPath true ["proj"; "data"; "ptb_xl"; "scp_statements.csv"])
  /\ is_dir_b (fs (w0 ptb_xl_tree)) (mkPath true ["proj"; "data"; "ptb_xl"; "records100"]) = true
  /\ exists_b (fs (snd out)) records500_dir = false.
Proof.
  intros out records500_dir.
  destruct (find_csv_dir_files_ptb_xl_returns_verbatim root_dir (w0 ptb_xl_tree)
              (snd out)
              (mkPath true ["proj"; "data"; "ptb_xl"; "records100"],
               records500_dir,
               mkPath true ["proj"; "data"; "ptb_xl"; "ptbxl_database.csv"],
               mkPath true ["proj"; "data"; "ptb_xl"; "scp_statements.csv"])
              eq_refl) as [_ [_ Habsent]].
  destruct (Habsent eq_refl) as [H100 [_ [H500 _]]].
  split; [reflexivity|]. split; [exact H100 | exact H500].
Defined.

(** ** MIT-BIH: [x_mitdb] or a non-empty [mit_bih] *)

(** What a name below a path resolves to, in terms of what the path
    resolves to. *)
Lemma resolve_joinpath f p n :
  String.eqb n ".." = false ->
  resolve f (p // n)
  = match resolve f p with
    | Some nd =>
        match dir_entries nd with
        | Some entries => if name_too_long n then None else lookup_entry n entries
        | None => None
        end
    | None => None
    end.
Proof.
  intros Hn. unfold resolve. rewrite walked_joinpath, walk_app.
  destruct (walk [] (fs_root f) (walked f p)) as [up cur| |]; try reflexivity.
  cbn [walk]. destruct (dir_entries cur) as [entries|]; [|reflexivity].
  rewrite Hn. destruct (name_too_long n); [reflexivity|].
  now destruct (lookup_entry n entries).
Qed.

(** A directory that can be read and has an entry under some name yields
    a listing that is not empty. *)
Lemma listdir_of_child f p n entries :
  String.eqb n ".." = false ->
  resolve f p = Some (Dir entries) ->
  resolve f (p // n) <> None -> listdir f p <> [].
Proof.
  intros Hn Hp. rewrite (resolve_joinpath _ _ _ Hn). unfold listdir. rewrite Hp.
  cbn [dir_entries]. destruct (name_too_long n); [congruence|].
  destruct entries; [simpl; congruence | discriminate].
Qed.

Lemma listdir_readable f p entries :
  resolve f p = Some (Dir entries) -> listdir f p = map fst entries.
Proof. unfold listdir. now intros ->. Qed.

Lemma listdir_unreadable f p entries :
  resolve f p = Some (SearchOnlyDir entries) -> listdir f p = [].
Proof. unfold listdir. now intros ->. Qed.







(** ** The dispatch wrapper *)

(** A name that lowers to one of the three names is dispatched as that
    name is. *)
Lemma dispatch_canonical dataset_name canonical project_dir :
  In canonical dataset_names -> lower dataset_name = canonical ->
  dispatch dataset_name project_dir = dispatch canonical project_dir.
Proof.
  intros Hin Hlow. unfold dispatch. rewrite Hlow.
  destruct Hin as [<-|[<-|[<-|[]]]]; reflexivity.
Qed.

Lemma dispatch_unknown dataset_name project_dir :
  ~ In (lower dataset_name) dataset_names ->
  dispatch dataset_name project_dir = raise (unknown_dataset dataset_name).
Proof.
  intros Hout. unfold dispatch.
  destruct (String.eqb_spec (lower dataset_name) "china") as [E|_];
    [exfalso; apply Hout; rewrite E; simpl; auto|].
  destruct (String.eqb_spec (lower dataset_name) "ptb_xl") as [E|_];
    [exfalso; apply Hout; rewrite E; simpl; auto|].
  destruct (String.eqb_spec (lower dataset_name) "mit_bih") as [E|_];
    [exfalso; apply Hout; rewrite E; simpl; auto|].
  reflexivity.
Qed.

(** The wrapper on top of the body of its [try] block. *)
Lemma safe_find_paths_run dataset_name project_dir w :
  safe_find_paths dataset_name project_dir w
  = match dispatch dataset_name project_dir w with
    | (Ret v, w1) => (Ret v, w1)
    | (Raise e, w1) =>
        if caught e then
          (Raise e,
           after w1 [(ERROR, "Failed to find paths for dataset '" ++ dataset_name ++ "': "
                             ++ exn_str e)] [])
        else (Raise e, w1)
    end.
Proof.
  unfold safe_find_paths, try_except.
  destruct (dispatch dataset_name project_dir w) as [[v|e] w1]; [reflexivity|].
  destruct (caught e); [|reflexivity].
  unfold logging_error. rewrite bind_emit. reflexivity.
Qed.

(** ** Casings of a name *)

Lemma all_ascii_spec test : all_ascii test = true -> forall a, test a = true.
Proof.
  unfold all_ascii. rewrite forallb_forall. intros H a.
  rewrite <- (ascii_nat_embedding a). apply H, in_seq.
  pose proof (nat_ascii_bounded a). lia.
Qed.

(** Lowering gives a character that lowering leaves alone exactly from
    that character and, for a small letter, from its capital. *)
Lemma lower_ascii_casing a c :
  lower_ascii c = c -> Ascii.eqb (lower_ascii a) c = casing_char a c.
Proof.
  intros Hc.
  assert (H : all_ascii (fun c =>
                all_ascii (fun a =>
                  implb (Ascii.eqb (lower_ascii c) c)
                        (Bool.eqb (Ascii.eqb (lower_ascii a) c) (casing_char a c))))
              = true) by (vm_compute; reflexivity).
  pose proof (all_ascii_spec _ (all_ascii_spec _ H c) a) as Hac. cbv beta in Hac.
  rewrite Hc, Ascii.eqb_refl in Hac. cbn [implb] in Hac.
  now apply Bool.eqb_prop in Hac.
Qed.

(** The casings of a name that lowering leaves alone are the strings
    that lower to it. *)
Lemma casing_lower name canonical :
  lower canonical = canonical -> casing name canonical = String.eqb (lower name) canonical.
Proof.
  revert canonical. induction name as [|a name IH]; intros [|c canonical] Hc;
    cbn [casing lower String.eqb]; try reflexivity.
  cbn [lower] in Hc. injection Hc as Hc1 Hc2.
  rewrite (lower_ascii_casing a c Hc1), (IH canonical Hc2).
  now destruct (Ascii.eqb (lower_ascii a) c).
Qed.

Lemma dataset_names_lower canonical :
  In canonical dataset_names -> lower canonical = canonical.
Proof. intros [<-|[<-|[<-|[]]]]; reflexivity. Qed.

Lemma casing_dataset_name name canonical :
  In canonical dataset_names ->
  casing name canonical = true <-> lower name = canonical.
Proof.
  intros Hin. rewrite (casing_lower _ _ (dataset_names_lower _ Hin)).
  apply String.eqb_eq.
Qed.

(** C7.  The wrapper is insensitive to the casing of the name: a name
    that is ["china"], ["ptb_xl"] or ["mit_bih"] in some casing, each
    letter small or capital, gives the result, value or error, that the
    lower-case name gives, which is the result of the resolver of that
    dataset; a name that is none of the three in any casing, which is to
    say that it lowers to none of them, raises the invalid-argument error,
    whose message quotes the name as given. *)
Theorem safe_find_paths_case_insensitive
    (dataset_name : string) (project_dir : Path) (w : World) :
  (forall canonical,
      In canonical dataset_names -> casing dataset_name canonical = true ->
      fst (safe_find_paths dataset_name project_dir w)
      = fst (safe_find_paths canonical project_dir w))
  /\ (forall d,
         casing dataset_name (dataset_name_of d) = true ->
         fst (safe_find_paths dataset_name project_dir w) = fst (resolver d project_dir w))
  /\ ((forall canonical, In canonical dataset_names -> casing dataset_name canonical = false) ->
      fst (safe_find_paths dataset_name project_dir w)
      = Raise (ValueError ("Unknown dataset name: " ++ dataset_name ++ ". "
                           ++ "Available: 'china', 'ptb_xl', 'mit_bih'")))
  /\ ((forall canonical, In canonical dataset_names -> casing dataset_name canonical = false)
      <-> ~ In (lower dataset_name) dataset_names).
Proof.
  split; [|split; [|split]].
  - intros canonical Hin Hcase. apply (casing_dataset_name _ _ Hin) in Hcase.
    rewrite !safe_find_paths_run.
    rewrite (dispatch_canonical _ _ project_dir Hin Hcase).
    destruct (dispatch canonical project_dir w) as [[v|e] w1]; [reflexivity|].
    now destruct (caught e).
  - intros d Hcase.
    assert (Hin : In (dataset_name_of d) dataset_names)
      by (destruct d; cbn [dataset_name_of dataset_names In]; auto).
    apply (casing_dataset_name _ _ Hin) in Hcase.
    rewrite safe_find_paths_run. unfold dispatch. rewrite Hcase.
    assert (E : forall m : M FoundPaths,
               m = resolver d project_dir ->
               fst match m w with
                   | (Ret v, w1) => (Ret v, w1)
                   | (Raise e, w1) =>
                       if caught e then
                         (Raise e,
                          after w1 [(ERROR, "Failed to find paths for dataset '"
                                            ++ dataset_name ++ "': " ++ exn_str e)] [])
                       else (Raise e, w1)
                   end
               = fst (resolver d project_dir w)).
    { intros m ->. destruct (resolver d project_dir w) as [[v|e] w1]; [reflexivity|].
      now destruct (caught e). }
    apply E. destruct d; reflexivity.
  - intros Hout. rewrite safe_find_paths_run, dispatch_unknown.
    + reflexivity.
    + intros Hin. pose proof (Hout _ Hin) as Hcase.
      rewrite (proj2 (casing_dataset_name _ _ Hin) eq_refl) in Hcase. discriminate Hcase.
  - split.
    + intros Hout Hin. pose proof (Hout _ Hin) as Hcase.
      rewrite (proj2 (casing_dataset_name _ _ Hin) eq_refl) in Hcase. discriminate Hcase.
    + intros Hout canonical Hin.
      destruct (casing dataset_name canonical) eqn:Hcase; [|reflexivity].
      apply (casing_dataset_name _ _ Hin) in Hcase. subst canonical. contradiction.
Qed.

Lemma safe_find_paths_case_insensitive_witness :
  fst (safe_find_paths "CHINA" root_dir (w0 china_tree))
  = fst (safe_find_paths "china" root_dir (w0 china_tree))
  /\ fst (safe_find_paths "Ptb_XL" root_dir (w0 ptb_xl_tree))
     = fst (resolver PtbXl root_dir (w0 ptb_xl_tree))
  /\ fst (safe_find_paths "unknown" root_dir (w0 china_tree))
     = Raise (ValueError
                "Unknown dataset name: unknown. Available: 'china', 'ptb_xl', 'mit_bih'").
Proof.
  split; [|split].
  - apply (proj1 (safe_find_paths_case_insensitive "CHINA" root_dir (w0 china_tree)) "china");
      [simpl; auto | reflexivity].
  - apply (proj1 (proj2 (safe_find_paths_case_insensitive "Ptb_XL" root_dir (w0 ptb_xl_tree)))
             PtbXl).
    reflexivity.
  - apply (proj1 (proj2 (proj2
             (safe_find_paths_case_insensitive "unknown" root_dir (w0 china_tree))))).
    intros canonical [<-|[<-|[<-|[]]]]; reflexivity.
Defined.

(** ** Every failure of a resolver has been logged by the validator *)

Lemma first_failure_exists (ok : Step -> bool) (l : list Step) :
  forallb ok l = false ->
  exists pre s post, l = (pre ++ s :: post)%list /\ forallb ok pre = true /\ ok s = false.
Proof.
  induction l as [|a l IH]; cbn [forallb]; [discriminate|].
  destruct (ok a) eqn:Ha; cbn [andb].
  - intros H. destruct (IH H) as [pre [s [post [-> [Hpre Hs]]]]].
    exists (a :: pre), s, post. cbn [forallb app]. rewrite Ha. auto.
  - intros _. exists [], a, l. auto.
Qed.

(** A resolver returns as soon as every step of its chain passes. *)
Lemma resolver_success (d : Dataset) (r : Path) (w : World) :
  forallb (step_ok (fs w)) (chain d r) = true ->
  exists v ls qs, resolver d r w = (Ret v, after w ls qs).
Proof.
  intros H.
  destruct d; cbn [chain forallb step_ok] in H; rewrite ?path_ok_dir, ?path_ok_file in H;
    split_andb; rewrite ?andb_true_r in *.
  - do 3 eexists. run. reflexivity.
  - destruct (is_dir_b (fs w) (r // "data" // "ptb_xl" // "records100")) eqn:H100,
             (is_dir_b (fs w) (r // "data" // "ptb_xl" // "records500")) eqn:H500;
      try discriminate; do 3 eexists; run; reflexivity.
  - destruct (is_dir_b (fs w) (r // "data" // "mit_bih" // "x_mitdb")) eqn:Hx.
    + do 3 eexists. run. reflexivity.
    + destruct (listdir (fs w) (r // "data" // "mit_bih")) eqn:Hl; [discriminate|].
      do 3 eexists. run. reflexivity.
Qed.

Lemma chain_passes_answered (d : Dataset) (r : Path) (f : FileSystem) :
  forallb (step_ok f) (chain d r) = true -> stat_error f r = None.
Proof.
  destruct (chain_head d r) as [rest ->]. cbn [forallb step_ok].
  intros H. apply andb_prop in H as [H _]. rewrite path_ok_dir in H.
  now apply is_dir_answered.
Qed.

(** A resolver that raises either raises its own missing-path error,
    after an ERROR line of the validator, or lets the [OSError] of the
    refused [stat] of the project directory through, with nothing
    logged. *)
Lemma resolver_raises (d : Dataset) (r : Path) (w w1 : World) (e : exn) :
  resolver d r w = (Raise e, w1) ->
  fs w1 = fs w
  /\ (((exists msg, e = FileNotFoundError msg)
       /\ (exists line, In (ERROR, line) (new_log w w1)))
      \/ (stat_error (fs w) r = Some e /\ caught e = false /\ new_log w w1 = [])).
Proof.
  intros E.
  destruct (stat_error (fs w) r) as [e'|] eqn:Hr.
  - rewrite (resolver_refused d r w e' Hr) in E. injection E as <- <-.
    autorewrite with world. split; [reflexivity|]. right.
    split; [reflexivity|]. split; [apply (stat_error_uncaught _ _ _ Hr) | reflexivity].
  - destruct (forallb (step_ok (fs w)) (chain d r)) eqn:Hall.
    + destruct (resolver_success d r w Hall) as [v [ls [qs E']]]. congruence.
    + destruct (first_failure_exists _ _ Hall) as [pre [s [post [Hchain [Hpre Hs]]]]].
      destruct (first_failure_run d r w pre post s Hr Hchain Hpre Hs)
        as [ls [qs [E' [_ Hline]]]].
      rewrite E in E'. injection E' as -> ->. autorewrite with world.
      split; [reflexivity|]. left. split; [|exact Hline].
      destruct s; cbn [step_error]; eauto.
Qed.

Lemma dispatch_cases dataset_name project_dir :
  (exists d, dispatch dataset_name project_dir = resolver d project_dir)
  \/ dispatch dataset_name project_dir = raise (unknown_dataset dataset_name).
Proof.
  unfold dispatch.
  destruct (String.eqb (lower dataset_name) "china"); [left; now exists China|].
  destruct (String.eqb (lower dataset_name) "ptb_xl"); [left; now exists PtbXl|].
  destruct (String.eqb (lower dataset_name) "mit_bih"); [left; now exists MitBih|].
  now right.
Qed.




(** ** Calls do not depend on earlier calls *)

Lemma stateless_intro {A} (m : M A) (g : FileSystem -> Result A * list LogLine * list Probe) :
  (forall w, m w = (fst (fst (g (fs w))), after w (snd (fst (g (fs w)))) (snd (g (fs w))))) ->
  Stateless m.
Proof.
  intros H w. rewrite (H (blank (fs w))), (H w). reflexivity.
Qed.

Lemma stateless_ret {A} (a : A) : Stateless (ret a).
Proof. apply (stateless_intro _ (fun _ => (Ret a, [], []))). intros w. cbn. now rewrite after_nil. Qed.

Lemma stateless_raise {A} (e : exn) : Stateless (@raise A e).
Proof. apply (stateless_intro _ (fun _ => (Raise e, [], []))). intros w. cbn. now rewrite after_nil. Qed.

Lemma stateless_emit l msg : Stateless (emit l msg).
Proof.
  apply (stateless_intro _ (fun _ => (Ret tt, [(l, msg)], []))). intros w.
  unfold emit, after. cbn. now rewrite app_nil_r.
Qed.

Lemma stateless_query {A} q p (answer : FileSystem -> A) :
  Stateless (stat_query q p answer).
Proof.
  apply (stateless_intro _
           (fun f => (match stat_error f p with
                      | Some e => Raise e
                      | None => Ret (answer f)
                      end, [], [q]))).
  intros w. unfold stat_query, query, after.
  destruct (stat_error (fs w) p); cbn; now rewrite app_nil_r.
Qed.

Lemma stateless_bind {A B} (m : M A) (k : A -> M B) :
  Stateless m -> (forall a, Stateless (k a)) -> Stateless (bind m k).
Proof.
  intros Hm Hk.
  apply (stateless_intro _
           (fun f =>
              match m (blank f) with
              | (Ret a, w1) =>
                  (fst (k a (blank f)),
                   log w1 ++ log (snd (k a (blank f))),
                   probes w1 ++ probes (snd (k a (blank f))))%list
              | (Raise e, w1) => (Raise e, log w1, probes w1)
              end)).
  intros w. unfold bind. rewrite (Hm w).
  destruct (m (blank (fs w))) as [[a|e] w1]; cbn [fst snd]; [|reflexivity].
  rewrite (Hk a (after w (log w1) (probes w1))). autorewrite with world. reflexivity.
Qed.

Lemma stateless_try_except {A} (m : M A) (classes : exn -> bool) (h : exn -> M A) :
  Stateless m -> (forall e, Stateless (h e)) -> Stateless (try_except m classes h).
Proof.
  intros Hm Hh.
  apply (stateless_intro _
           (fun f =>
              match m (blank f) with
              | (Ret a, w1) => (Ret a, log w1, probes w1)
              | (Raise e, w1) =>
                  if classes e then
                    (fst (h e (blank f)),
                     log w1 ++ log (snd (h e (blank f))),
                     probes w1 ++ probes (snd (h e (blank f))))%list
                  else (Raise e, log w1, probes w1)
              end)).
  intros w. unfold try_except. rewrite (Hm w).
  destruct (m (blank (fs w))) as [[a|e] w1]; cbn [fst snd]; [reflexivity|].
  destruct (classes e); cbn [fst snd]; [|reflexivity].
  rewrite (Hh e (after w (log w1) (probes w1))). autorewrite with world. reflexivity.
Qed.

Ltac stateless :=
  repeat first
    [ apply stateless_ret
    | apply stateless_raise
    | apply stateless_emit
    | apply stateless_query
    | apply stateless_bind; [|intros ?]
    | apply stateless_try_except; [|intros ?]
    | match goal with
      | |- Stateless (if ?b then _ else _) => destruct b
      | |- Stateless (match ?l with [] => _ | _ :: _ => _ end) => destruct l
      | |- Stateless (let x := _ in _) => cbv zeta
      end ].

Lemma stateless_validate path is_dir path_name :
  Stateless (validate_path_exists path is_dir path_name).
Proof.
  unfold validate_path_exists, path_exists, path_is_dir, path_is_file, logging_error.
  stateless.
Qed.

Lemma stateless_china r : Stateless (find_csv_dir_files_china r).
Proof.
  unfold find_csv_dir_files_china, logging_info.
  repeat first [apply stateless_validate | progress stateless].
Qed.

Lemma stateless_ptb_xl r : Stateless (find_csv_dir_files_ptb_xl r).
Proof.
  unfold find_csv_dir_files_ptb_xl, logging_info.
  repeat first [apply stateless_validate | progress stateless].
Qed.

Lemma stateless_mit_bih r : Stateless (find_dirs_mit_bih r).
Proof.
  unfold find_dirs_mit_bih, logging_info, logging_warning, path_glob_star.
  repeat first [apply stateless_validate | progress stateless].
Qed.

Lemma stateless_safe_find_paths dataset_name project_dir :
  Stateless (safe_find_paths dataset_name project_dir).
Proof.
  unfold safe_find_paths, dispatch, fmap, logging_error.
  repeat first [ apply stateless_china | apply stateless_ptb_xl | apply stateless_mit_bih
               | progress stateless ].
Qed.

(** C9.  A call of [safe_find_paths] leaves the file system as it is and
    only appends to the log; a second call with the same arguments, made
    in the world the first one left, gives the same result, value or
    error, and emits the same log lines. *)
Theorem safe_find_paths_idempotent (dataset_name : string) (project_dir : Path) (w : World) :
  let first := safe_find_paths dataset_name project_dir w in
  let second := safe_find_paths dataset_name project_dir (snd first) in
  fst second = fst first
  /\ fs (snd first) = fs w
  /\ log (snd first) = (log w ++ new_log w (snd first))%list
  /\ new_log (snd first) (snd second) = new_log w (snd first).
Proof.
  intros first second. subst first second.
  pose proof (stateless_safe_find_paths dataset_name project_dir) as H.
  rewrite (H w). cbn [fst snd]. rewrite (H (after w _ _)). cbn [fst snd].
  autorewrite with world. repeat split.
Qed.

(** * Further properties *)

(** ** The validator: what it logs and what it queries *)


(** ** The resolvers along their chains *)

(** Runs a resolver through the outcomes of its validations, in the order
    in which it makes them. *)
Ltac explore :=
  unfold resolver, fmap, find_csv_dir_files_china, find_csv_dir_files_ptb_xl,
    find_dirs_mit_bih, logging_info, logging_warning, logging_error, path_glob_star,
    glob_star;
  repeat first
    [ run_step
    | match goal with
      | |- context [if negb (is_dir_b ?f ?p) then _ else _] => destruct (is_dir_b f p) eqn:?
      | |- context [if negb (is_file_b ?f ?p) then _ else _] => destruct (is_file_b f p) eqn:?
      | |- context [if is_dir_b ?f ?p then _ else _] => destruct (is_dir_b f p) eqn:?
      | |- context [map _ (listdir ?f ?p)] =>
          destruct (listdir f p) eqn:?
      end; cbn [negb map] ];
  cbv beta delta [ret raise].

Ltac known_outcomes :=
  repeat match goal with
         | H : is_dir_b _ _ = _ |- _ => rewrite H
         | H : is_file_b _ _ = _ |- _ => rewrite H
         | H : listdir _ _ = _ |- _ => rewrite H
         end.

(** A resolver does what its chain says: result, log lines and queries. *)
Lemma resolver_run (d : Dataset) (r : Path) (w : World) :
  resolver d r w
  = (resolver_result d (fs w) r,
     after w (resolver_lines d (fs w) r) (resolver_probes d (fs w) r)).
Proof.
  unfold resolver_result, resolver_lines, resolver_probes.
  destruct (stat_error (fs w) r) as [e|] eqn:Hr; [apply (resolver_refused d r w e Hr)|].
  destruct d; explore.
  all: cbn [chain first_failing chain_lines chain_probes step_ok step_lines step_probes
            layout_paths success_line step_error];
    rewrite ?path_ok_dir, ?path_ok_file; known_outcomes;
    cbn [orb andb length]; rewrite ?length_map;
    unfold after; rewrite <- ?app_assoc, ?app_nil_r; cbn [app]; reflexivity.
Qed.

Lemma first_failing_app f pre s post :
  forallb (step_ok f) pre = true -> step_ok f s = false ->
  first_failing f (pre ++ s :: post) = Some s.
Proof.
  induction pre as [|a pre IH]; cbn [forallb app first_failing]; intros Hpre Hs.
  - now rewrite Hs.
  - apply andb_prop in Hpre as [-> Hpre]. auto.
Qed.

Lemma chain_lines_app f pre s post :
  forallb (step_ok f) pre = true -> step_ok f s = false ->
  chain_lines f (pre ++ s :: post) = (chain_lines f pre ++ step_lines f s)%list.
Proof.
  induction pre as [|a pre IH]; cbn [forallb app chain_lines]; intros Hpre Hs.
  - rewrite Hs. now rewrite app_nil_r.
  - apply andb_prop in Hpre as [Ha Hpre]. rewrite Ha, (IH Hpre Hs).
    now rewrite app_assoc.
Qed.

Lemma chain_probes_in f steps q :
  In q (chain_probes f steps) -> exists s, In s steps /\ In q (step_probes f s).
Proof.
  induction steps as [|a steps IH]; cbn [chain_probes]; [easy|].
  intros H. apply in_app_or in H as [H|H].
  - exists a. split; [now left | exact H].
  - destruct (step_ok f a); [|easy].
    destruct (IH H) as [s [Hs Hq]]. exists s. split; [now right | exact Hq].
Qed.

Lemma validate_probes_kind f p d q :
  In q (validate_probes f p d) -> q = PExists p \/ q = PIsDir p \/ q = PIsFile p.
Proof.
  unfold validate_probes. destruct (exists_b f p), d; cbn [In]; intuition auto.
Qed.



(** X4.  A resolver queries nothing but the paths of its own chain, and it
    lists a directory in one situation only: the MIT-BIH resolver lists
    [data/mit_bih] when [x_mitdb] is not a directory. *)
Theorem resolver_queries_within_layout (d : Dataset) (r : Path) (w : World) (q : Probe) :
  In q (new_probes w (snd (resolver d r w))) ->
  In (probe_path q) (flat_map step_paths (chain d r))
  /\ (is_listing q = true ->
      d = MitBih
      /\ q = PGlob (r // "data" // "mit_bih")
      /\ is_dir_b (fs w) (r // "data" // "mit_bih" // "x_mitdb") = false).
Proof.
  rewrite resolver_run. cbn [snd]. autorewrite with world. unfold resolver_probes.
  destruct (stat_error (fs w) r).
  { intros [<-|[]]. destruct (chain_head d r) as [rest ->].
    cbn [flat_map step_paths app probe_path is_listing In].
    split; [auto | discriminate]. }
  intros Hin.
  apply chain_probes_in in Hin as [s [Hs Hq]].
  destruct d; cbn [chain In] in Hs;
    repeat (destruct Hs as [<-|Hs]); try contradiction;
    cbn [step_probes] in Hq;
    repeat (apply in_app_or in Hq as [Hq|Hq]);
    try (apply validate_probes_kind in Hq as [-> | [-> | ->]]);
    cbn [chain flat_map step_paths app probe_path is_listing In];
    try (split; [tauto | discriminate]).
  destruct (is_dir_b (fs w) (r // "data" // "mit_bih" // "x_mitdb")); [contradiction|].
  destruct Hq as [<-|[]]. cbn [probe_path]. split; [tauto | auto].
Qed.

Lemma resolver_queries_within_layout_witness :
  In (PGlob (root_dir // "data" // "mit_bih"))
     (new_probes (w0 mit_bih_tree) (snd (resolver MitBih root_dir (w0 mit_bih_tree))))
  /\ is_dir_b (fs (w0 mit_bih_tree)) (root_dir // "data" // "mit_bih" // "x_mitdb") = false.
Proof.
  assert (Hin : In (PGlob (root_dir // "data" // "mit_bih"))
                   (new_probes (w0 mit_bih_tree)
                               (snd (resolver MitBih root_dir (w0 mit_bih_tree)))))
    by (vm_compute; auto 12).
  split; [exact Hin|].
  destruct (resolver_queries_within_layout MitBih root_dir (w0 mit_bih_tree) _ Hin)
    as [_ Hlist].
  exact (proj2 (proj2 (Hlist eq_refl))).
Defined.



(** ** PTB-XL and MIT-BIH: calls that succeed after a failed validation *)

(** The log lines of every validation whose outcome is among the
    hypotheses. *)
Ltac known_lines :=
  repeat match goal with
         | H : is_dir_b ?f ?p = true |- context [validate_lines ?f ?p true ?n] =>
             rewrite (validate_lines_dir f p n H)
         | H : is_dir_b ?f ?p = false |- context [validate_lines ?f ?p true ?n] =>
             rewrite (validate_lines_not_dir f p n H)
         | H : is_file_b ?f ?p = true |- context [validate_lines ?f ?p false ?n] =>
             rewrite (validate_lines_file f p n H)
         | H : is_file_b ?f ?p = false |- context [validate_lines ?f ?p false ?n] =>
             rewrite (validate_lines_not_file f p n H)
         end.

(** X6.  The log of a PTB-XL call that succeeds: for each of [records100]
    and [records500], in this order, the INFO line that it was found, or
    else the validator's ERROR line for it; then the success line.  A call
    that finds one of the two directories only thus succeeds with an ERROR
    line in its log. *)
Theorem find_csv_dir_files_ptb_xl_success_log (project_dir : Path) (w : World) :
  let ds := project_dir // "data" // "ptb_xl" in
  let found (label what : string) (p : Path) : LogLine :=
    if is_dir_b (fs w) p then (INFO, "Found " ++ what ++ " resolution records: " ++ path_str p)
    else (ERROR, label ++ (if exists_b (fs w) p then " не является директорией: "
                           else " не существует: ") ++ path_str p) in
  is_dir_b (fs w) project_dir = true ->
  is_dir_b (fs w) (project_dir // "data") = true ->
  is_dir_b (fs w) ds = true ->
  is_dir_b (fs w) (ds // "records100") || is_dir_b (fs w) (ds // "records500") = true ->
  is_file_b (fs w) (ds // "ptbxl_database.csv") = true ->
  is_file_b (fs w) (ds // "scp_statements.csv") = true ->
  new_log w (snd (find_csv_dir_files_ptb_xl project_dir w))
  = [found "Records100 directory" "low" (ds // "records100");
     found "Records500 directory" "high" (ds // "records500");
     (INFO, "Successfully validated all paths for ptb_xl dataset")].
Proof.
  intros ds found H1 H2 H3 Hone Hm Hc. subst ds found. cbv beta.
  destruct (is_dir_b (fs w) (project_dir // "data" // "ptb_xl" // "records100")) eqn:H100,
           (is_dir_b (fs w) (project_dir // "data" // "ptb_xl" // "records500")) eqn:H500;
    try discriminate Hone; clear Hone.
  all: run; cbn [snd]; autorewrite with world; known_lines;
    rewrite <- ?app_assoc; cbn [app]; reflexivity.
Qed.

Lemma find_csv_dir_files_ptb_xl_success_log_witness :
  new_log (w0 ptb_xl_tree) (snd (find_csv_dir_files_ptb_xl root_dir (w0 ptb_xl_tree)))
  = [(INFO, "Found low resolution records: /proj/data/ptb_xl/records100");
     (ERROR, "Records500 directory не существует: /proj/data/ptb_xl/records500");
     (INFO, "Successfully validated all paths for ptb_xl dataset")].
Proof.
  exact (find_csv_dir_files_ptb_xl_success_log root_dir (w0 ptb_xl_tree)
           eq_refl eq_refl eq_refl eq_refl eq_refl eq_refl).
Defined.



(** ** The wrapper on top of the chains *)

Lemma dispatch_dataset_of dataset_name project_dir :
  dispatch dataset_name project_dir
  = match dataset_of dataset_name with
    | Some d => resolver d project_dir
    | None => raise (unknown_dataset dataset_name)
    end.
Proof.
  unfold dispatch, dataset_of.
  destruct (String.eqb (lower dataset_name) "china"); [reflexivity|].
  destruct (String.eqb (lower dataset_name) "ptb_xl"); [reflexivity|].
  destruct (String.eqb (lower dataset_name) "mit_bih"); reflexivity.
Qed.


(** ** A resolver looks at its own layout only *)

Lemma path_ok_agree f1 f2 p d : same_kind f1 f2 p -> path_ok f1 p d = path_ok f2 p d.
Proof. unfold path_ok. now intros [_ [-> [-> ->]]]. Qed.

Lemma validate_lines_agree f1 f2 p d n :
  same_kind f1 f2 p -> validate_lines f1 p d n = validate_lines f2 p d n.
Proof. unfold validate_lines. now intros [_ [-> [-> ->]]]. Qed.

Lemma validate_probes_agree f1 f2 p d :
  same_kind f1 f2 p -> validate_probes f1 p d = validate_probes f2 p d.
Proof. unfold validate_probes. now intros [_ [-> _]]. Qed.

Lemma chain_agree f1 f2 steps :
  (forall s, In s steps ->
             step_ok f1 s = step_ok f2 s
             /\ step_lines f1 s = step_lines f2 s
             /\ step_probes f1 s = step_probes f2 s) ->
  first_failing f1 steps = first_failing f2 steps
  /\ chain_lines f1 steps = chain_lines f2 steps
  /\ chain_probes f1 steps = chain_probes f2 steps.
Proof.
  induction steps as [|a steps IH]; intros H; [repeat split|].
  destruct (H a (or_introl eq_refl)) as [Hok [Hl Hq]].
  destruct IH as [IH1 [IH2 IH3]]; [intros s Hs; apply H; now right|].
  cbn [first_failing chain_lines chain_probes].
  rewrite Hok, Hl, Hq, IH1, IH2, IH3. repeat split.
Qed.

(** X9.  A resolver depends on the file system through the outcome of
    the queries of the paths of its chain (refused or not, and of which
    kind) and, for MIT-BIH, the number of entries that the listing of
    [data/mit_bih] yields, and on nothing else: over two file systems that
    agree on these it gives the same result, logs the same lines and
    issues the same queries. *)
Theorem resolver_depends_on_layout_only (d : Dataset) (r : Path) (w1 w2 : World) :
  (forall p, In p (flat_map step_paths (chain d r)) -> same_kind (fs w1) (fs w2) p) ->
  (d = MitBih ->
   length (listdir (fs w1) (r // "data" // "mit_bih"))
   = length (listdir (fs w2) (r // "data" // "mit_bih"))) ->
  fst (resolver d r w1) = fst (resolver d r w2)
  /\ new_log w1 (snd (resolver d r w1)) = new_log w2 (snd (resolver d r w2))
  /\ new_probes w1 (snd (resolver d r w1)) = new_probes w2 (snd (resolver d r w2)).
Proof.
  intros H Hlen. rewrite !resolver_run. cbn [fst snd]. autorewrite with world.
  unfold resolver_result, resolver_lines, resolver_probes.
  assert (Hr : stat_error (fs w1) r = stat_error (fs w2) r).
  { apply H. destruct (chain_head d r) as [rest ->].
    cbn [flat_map step_paths app In]. auto. }
  rewrite Hr.
  destruct (chain_agree (fs w1) (fs w2) (chain d r)) as [E1 [E2 E3]];
    [|rewrite E1, E2, E3; repeat split].
  intros s Hs.
  destruct d; cbn [chain flat_map step_paths app In] in H, Hs;
    repeat (destruct Hs as [<-|Hs]); try contradiction;
    cbn [step_ok step_lines step_probes];
    rewrite ?(path_ok_agree (fs w1) (fs w2)), ?(validate_lines_agree (fs w1) (fs w2)),
            ?(validate_probes_agree (fs w1) (fs w2))
      by (apply H; tauto);
    try (repeat split; fail).
  - rewrite (proj1 (proj2 (proj2 (H (r // "data" // "ptb_xl" // "records100") ltac:(tauto))))),
            (proj1 (proj2 (proj2 (H (r // "data" // "ptb_xl" // "records500") ltac:(tauto))))).
    repeat split.
  - rewrite (proj1 (proj2 (proj2 (H (r // "data" // "mit_bih" // "x_mitdb") ltac:(tauto))))).
    specialize (Hlen eq_refl). rewrite Hlen.
    destruct (listdir (fs w1) (r // "data" // "mit_bih")),
             (listdir (fs w2) (r // "data" // "mit_bih"));
      try discriminate Hlen; repeat split.
Qed.

Lemma resolver_depends_on_layout_only_witness :
  fst (resolver China root_dir (w0 china_busy_tree))
  = fst (resolver China root_dir (w0 china_tree))
  /\ new_log (w0 china_busy_tree) (snd (resolver China root_dir (w0 china_busy_tree)))
     = new_log (w0 china_tree) (snd (resolver China root_dir (w0 china_tree))).
Proof.
  destruct (resolver_depends_on_layout_only China root_dir
              (w0 china_busy_tree) (w0 china_tree)) as [E [L _]].
  - cbn [chain flat_map step_paths app In].
    intros p [<-|[<-|[<-|[<-|[<-|[<-|[]]]]]]]; repeat split.
  - discriminate.
  - split; [exact E | exact L].
Defined.
